(** * A shallow embedding of [server.js]

    The server is an Express application with five routes.  Every route
    handler is an [async] function whose only interaction with the outside
    world goes through awaited library calls (Mongoose models, bcrypt, axios)
    and [console.error].  The handlers are embedded as programs of a small
    free monad over these calls ([prog]); JavaScript's [try]/[catch] is
    [try_catch].  A reference environment ([perform]) answers the calls from a
    [World]: the two MongoDB collections with the constraints declared by the
    schemas of the source, the connection status, and the upstream prediction
    service. *)

From stdpp Require Import base option list gmap strings.
From Stdlib Require Import ZArith Lia.

Local Open Scope string_scope.
Local Open Scope list_scope.
Local Open Scope nat_scope.
Local Set Warnings "-register-all".

(** ** Values *)

(** JSON values, as [bodyParser.json()] hands them to the handlers.  A number
    is kept as a decimal [m * 10^e]; no handler computes with numbers. *)
Inductive json : Type :=
| JNull
| JBool (b : bool)
| JNum (m e : Z)
| JStr (s : string)
| JArr (items : list json)
| JObj (fields : list (string * json)).

(** What a destructuring [const { k } = req.body] binds: the member, or
    [undefined] ([None]) when the body has no such key. *)
Definition jsval : Type := option json.

(** ** Documents of the two Mongoose models *)

Module User.
(** A stored document of [userSchema] (source lines 28-33). *)
Record doc : Type := Doc {
  firstName : string;
  lastName : string;
  email : string;
  password : string
}.
(** The argument of [new User({ ... })]: whatever the handler passes. *)
Record init : Type := Init {
  i_firstName : jsval;
  i_lastName : jsval;
  i_email : jsval;
  i_password : jsval
}.
End User.

Module Contact.
(** A stored document of [contactSchema] (source lines 38-45); the schema
    option [timestamps: true] adds the two dates. *)
Record doc : Type := Doc {
  name : string;
  email : string;
  message : string;
  createdAt : nat;
  updatedAt : nat
}.
Record init : Type := Init {
  i_name : jsval;
  i_email : jsval;
  i_message : jsval
}.
End Contact.

(** ** Errors and library calls *)

(** Why an axios request is rejected. *)
Inductive AxiosFailure : Type :=
| ECONNREFUSED
| ETIMEDOUT
| BadStatus (status : nat) (data : json).

(** The exceptions a rejected promise carries into a [catch] block. *)
Inductive JsError : Type :=
| MongoNotConnected
| ValidationError (paths : list string)
| DuplicateKey (index : string)
| BcryptArgumentError
| AxiosError (cause : AxiosFailure).

Record AxiosResponse : Type := { ax_status : nat; ax_data : json }.

(** The library calls the handlers make. *)
Inductive Call : Type :=
| User_findOne (email : jsval)
| User_save (doc : User.init)
| Contact_save (doc : Contact.init)
| Contact_find
| bcrypt_hash (data : jsval) (saltRounds : nat)
| bcrypt_compare (data : jsval) (encrypted : string)
| axios_post (url : string) (data : list (string * jsval))
| console_error (label : string) (error : JsError).

(** The value a call resolves to. *)
Definition Answer (c : Call) : Type :=
  match c with
  | User_findOne _ => option User.doc
  | User_save _ => User.doc
  | Contact_save _ => Contact.doc
  | Contact_find => list Contact.doc
  | bcrypt_hash _ _ => string
  | bcrypt_compare _ _ => bool
  | axios_post _ _ => AxiosResponse
  | console_error _ _ => unit
  end.

(** ** Handler programs *)

(** A program performs calls until it returns or throws.  The continuation of
    a call receives the resolved value or the rejection. *)
Inductive prog (R : Type) : Type :=
| Ret (r : R)
| Throw (e : JsError)
| Perform (c : Call) (k : Answer c + JsError → prog R).

Arguments Ret {R} r.
Arguments Throw {R} e.
Arguments Perform {R} c k.

Fixpoint prog_bind {A B : Type} (f : A → prog B) (p : prog A) : prog B :=
  match p with
  | Ret a => f a
  | Throw e => Throw e
  | Perform c k => Perform c (λ a, prog_bind f (k a))
  end.

#[global] Instance prog_mret : MRet prog := λ _ r, Ret r.
#[global] Instance prog_mbind : MBind prog := λ _ _ f p, prog_bind f p.

(** [await c]: a rejected promise throws at the [await]. *)
Definition await (c : Call) : prog (Answer c) :=
  Perform c (λ a, match a with inl x => Ret x | inr e => Throw e end).

(** A synchronous statement such as [console.error(...)]: it is performed for
    its effect and cannot throw. *)
Definition statement (c : Call) : prog unit :=
  Perform c (λ _, Ret ()).

(** [try { p } catch (error) { h error }]. *)
Fixpoint try_catch {R : Type} (p : prog R) (h : JsError → prog R) : prog R :=
  match p with
  | Ret r => Ret r
  | Throw e => h e
  | Perform c k => Perform c (λ a, try_catch (k a) h)
  end.

(** ** Responses *)

Inductive ResBody : Type :=
| Json (j : json)
| ContactDocs (docs : list Contact.doc).

Record Response : Type := { status : nat; body : ResBody }.

(** [res.status(code).json(payload)]. *)
Definition res_status_json (code : nat) (payload : ResBody) : Response :=
  {| status := code; body := payload |}.

(** [res.json(payload)]: Express answers 200 when no status was set. *)
Definition res_json (payload : ResBody) : Response :=
  res_status_json 200 payload.

(** The object literal [{ message: m }]. *)
Definition message_body (m : string) : ResBody :=
  Json (JObj [("message", JStr m)]).

(** ** The five route handlers *)

(** [app.post("/api/contact", ...)], source lines 50-61. *)
Definition post_api_contact (req_body : gmap string json) : prog Response :=
  let name := req_body !! "name" in
  let email := req_body !! "email" in
  let message := req_body !! "message" in
  try_catch
    (_ ← await (Contact_save (Contact.Init name email message));
     mret (res_status_json 201 (message_body "Contact message saved successfully.")))
    (λ error,
       _ ← statement (console_error "Error saving contact message:" error);
       mret (res_status_json 500 (message_body "Error saving contact message."))).

(** [app.get("/api/contact", ...)], source lines 64-72. *)
Definition get_api_contact : prog Response :=
  try_catch
    (contacts ← await Contact_find;
     mret (res_status_json 200 (ContactDocs contacts)))
    (λ error,
       _ ← statement (console_error "Error fetching contact messages:" error);
       mret (res_status_json 500 (message_body "Error fetching contact messages."))).

(** The cost factor passed to [bcrypt.hash], source line 85. *)
Definition saltRounds : nat := 10.

(** [app.post("/api/signup", ...)], source lines 75-99. *)
Definition post_api_signup (req_body : gmap string json) : prog Response :=
  let firstName := req_body !! "firstName" in
  let lastName := req_body !! "lastName" in
  let email := req_body !! "email" in
  let password := req_body !! "password" in
  try_catch
    (existingUser ← await (User_findOne email);
     match existingUser with
     | Some _ => mret (res_status_json 400 (message_body "User already exists"))
     | None =>
         hashedPassword ← await (bcrypt_hash password saltRounds);
         _ ← await (User_save
                      (User.Init firstName lastName email (Some (JStr hashedPassword))));
         mret (res_status_json 201 (message_body "User registered successfully"))
     end)
    (λ error,
       _ ← statement (console_error "Error registering user:" error);
       mret (res_status_json 500 (message_body "Error registering user."))).

(** [app.post("/api/login", ...)], source lines 102-122. *)
Definition post_api_login (req_body : gmap string json) : prog Response :=
  let email := req_body !! "email" in
  let password := req_body !! "password" in
  try_catch
    (user ← await (User_findOne email);
     match user with
     | None => mret (res_status_json 401 (message_body "Invalid email or password"))
     | Some user =>
         passwordMatch ← await (bcrypt_compare password (User.password user));
         if negb passwordMatch
         then mret (res_status_json 401 (message_body "Invalid email or password"))
         else mret (res_status_json 200
                      (Json (JObj [("message", JStr "Login successful");
                                   ("name", JStr (User.firstName user))])))
     end)
    (λ error,
       _ ← statement (console_error "Error logging in:" error);
       mret (res_status_json 500 (message_body "Error logging in."))).

(** The address of the prediction service, source line 130. *)
Definition predict_url : string := "http://localhost:8000/predict".

(** The object literal [{ age, sex, bmi, children, smoker, region }]. *)
Definition predict_payload (req_body : gmap string json) : list (string * jsval) :=
  let age := req_body !! "age" in
  let sex := req_body !! "sex" in
  let bmi := req_body !! "bmi" in
  let children := req_body !! "children" in
  let smoker := req_body !! "smoker" in
  let region := req_body !! "region" in
  [("age", age); ("sex", sex); ("bmi", bmi);
   ("children", children); ("smoker", smoker); ("region", region)].

(** [app.post("/predict", ...)], source lines 125-145. *)
Definition post_predict (req_body : gmap string json) : prog Response :=
  try_catch
    (response ← await (axios_post predict_url (predict_payload req_body));
     mret (res_json (Json (ax_data response))))
    (λ error,
       _ ← statement (console_error "Error calling FastAPI:" error);
       mret (res_status_json 500 (message_body "Error processing prediction request"))).

(** The routing table. *)
Inductive Request : Type :=
| POST_api_contact (req_body : gmap string json)
| GET_api_contact
| POST_api_signup (req_body : gmap string json)
| POST_api_login (req_body : gmap string json)
| POST_predict (req_body : gmap string json).

Definition route (req : Request) : prog Response :=
  match req with
  | POST_api_contact b => post_api_contact b
  | GET_api_contact => get_api_contact
  | POST_api_signup b => post_api_signup b
  | POST_api_login b => post_api_login b
  | POST_predict b => post_predict b
  end.

(** ** The environment *)

(** What the libraries compute and the source does not fix. *)
Class Libraries : Type := {
  (** bcrypt's key derivation: plaintext, cost factor and the salt drawn for
      this call. *)
  bcrypt_kdf : string → nat → nat → string;
  (** bcrypt's comparison of a plaintext with a stored hash. *)
  bcrypt_check : string → string → bool;
  (** Mongoose's cast of a JSON value that is not a string to a [String]
      path; [None] when the cast fails. *)
  cast_other : json → option string;
  (** [User.findOne({ email: v })] for a [v] that is not a string
      ([undefined], [null], a number, an operator object, ...). *)
  findOne_other : jsval → list User.doc → option User.doc;
  (** A bcrypt hash is a 60-character string, so never the empty one. *)
  bcrypt_kdf_nonempty : ∀ data cost salt, bcrypt_kdf data cost salt ≠ ""
}.

(** How a request to the prediction service ends. *)
Inductive Upstream : Type :=
| Unreachable
| TimedOut
| Replied (status : nat) (data : json).

Record World : Type := {
  (** whether [mongoose.connect] (source lines 19-25) has succeeded *)
  db_connected : bool;
  (** the [users] collection, in insertion order *)
  users : list User.doc;
  (** the [contacts] collection, in insertion order *)
  contacts : list Contact.doc;
  (** the wall clock read by the [timestamps] option *)
  now : nat;
  (** the salt bcrypt draws at the next [hash] *)
  next_salt : nat;
  (** the service behind [predict_url] *)
  upstream : string → list (string * jsval) → Upstream
}.

Definition set_users (us : list User.doc) (w : World) : World :=
  {| db_connected := db_connected w; users := us; contacts := contacts w;
     now := now w; next_salt := next_salt w; upstream := upstream w |}.

Definition set_contacts (cs : list Contact.doc) (w : World) : World :=
  {| db_connected := db_connected w; users := users w; contacts := cs;
     now := now w; next_salt := next_salt w; upstream := upstream w |}.

Definition draw_salt (w : World) : World :=
  {| db_connected := db_connected w; users := users w; contacts := contacts w;
     now := now w; next_salt := S (next_salt w); upstream := upstream w |}.

(** A call together with what it was answered. *)
Record Event : Type := { call : Call; reply : Answer call + JsError }.

(** What a finished handler leaves behind: its result, the world, and the
    calls it made, in order. *)
Record Outcome (R : Type) : Type := {
  result : R + JsError;
  final : World;
  trace : list Event
}.

Arguments result {R} o.
Arguments final {R} o.
Arguments trace {R} o.

(** axios resolves for a 2xx status and rejects otherwise (its default
    [validateStatus]); it also rejects when no response arrives. *)
Definition axios_outcome (u : Upstream) : AxiosResponse + JsError :=
  match u with
  | Unreachable => inr (AxiosError ECONNREFUSED)
  | TimedOut => inr (AxiosError ETIMEDOUT)
  | Replied st d =>
      if ((200 <=? st) && (st <? 300))%nat
      then inl {| ax_status := st; ax_data := d |}
      else inr (AxiosError (BadStatus st d))
  end.

(** ** Sample data

    A stand-in for the libraries and a few worlds and request bodies, on
    which the handlers are evaluated. *)

Definition sample_kdf (data : string) (cost salt : nat) : string :=
  String.append "$2b$10$" data.

Definition sample_libraries : Libraries := {|
  bcrypt_kdf := sample_kdf;
  bcrypt_check := λ data encrypted, bool_decide (encrypted = sample_kdf data 10 0);
  cast_other := λ _, None;
  findOne_other := λ _ _, None;
  bcrypt_kdf_nonempty := ltac:(intros data cost salt H; discriminate H)
|}.

Definition no_upstream : string → list (string * jsval) → Upstream :=
  λ _ _, Unreachable.

(** A connected, empty database. *)
Definition fresh_world : World := {|
  db_connected := true; users := []; contacts := [];
  now := 0; next_salt := 0; upstream := no_upstream
|}.

(** A registered user, with the hash [sample_kdf] gives her password. *)
Definition alice : User.doc :=
  User.Doc "A" "B" "a@x.com" (sample_kdf "pw1" 10 0).

Definition alice_world : World := {|
  db_connected := true; users := [alice]; contacts := [];
  now := 0; next_salt := 1; upstream := no_upstream
|}.

(** The same store, which [mongoose.connect] failed to reach. *)
Definition offline_world : World := {|
  db_connected := false; users := [alice]; contacts := [];
  now := 0; next_salt := 1; upstream := no_upstream
|}.

(** A prediction service that answers every request. *)
Definition quote : json := JObj [("prediction", JNum 1234567 (-2))].

Definition predicting_world : World := {|
  db_connected := true; users := []; contacts := [];
  now := 0; next_salt := 0; upstream := λ _ _, Replied 200 quote
|}.

Definition predict_body : gmap string json :=
  {[ "age" := JNum 31 0; "sex" := JStr "female"; "bmi" := JNum 275 (-1);
     "children" := JNum 2 0; "smoker" := JStr "no"; "region" := JStr "southwest" ]}.

(** A registration payload that lacks [firstName]. *)
Definition nameless_body : gmap string json :=
  {[ "lastName" := JStr "B"; "email" := JStr "a@x.com"; "password" := JStr "pw1" ]}.

Definition signup_body (firstName lastName email password : string)
    : gmap string json :=
  {[ "firstName" := JStr firstName; "lastName" := JStr lastName;
     "email" := JStr email; "password" := JStr password ]}.

Definition login_body (email password : string) : gmap string json :=
  {[ "email" := JStr email; "password" := JStr password ]}.

Definition contact_body (name email message : string) : gmap string json :=
  {[ "name" := JStr name; "email" := JStr email; "message" := JStr message ]}.

(** A prediction service that answers, next to a database that
    [mongoose.connect] failed to reach. *)
Definition predicting_offline_world : World := {|
  db_connected := false; users := [alice]; contacts := [];
  now := 7; next_salt := 1; upstream := λ _ _, Replied 200 quote
|}.

(** A contact payload whose message is the empty string. *)
Definition blank_contact_body : gmap string json :=
  {[ "name" := JStr "N"; "email" := JStr "n@x.com"; "message" := JStr "" ]}.

(** A login payload that carries an email and nothing else. *)
Definition email_only_body (email : string) : gmap string json :=
  {[ "email" := JStr email ]}.

(** A store that already holds a contact message. *)
Definition note : Contact.doc := Contact.Doc "N" "n@x.com" "hello" 3 3.

Definition noted_world : World := {|
  db_connected := true; users := [alice]; contacts := [note];
  now := 5; next_salt := 1; upstream := no_upstream
|}.

(** Login and registration payloads without a password. *)
Definition passwordless_body (email : string) : gmap string json :=
  {[ "firstName" := JStr "C"; "lastName" := JStr "D"; "email" := JStr email ]}.

Section Server.
Context `{L : Libraries}.

(** The value Mongoose stores at a [{ type: String }] path. *)
Definition castString (v : jsval) : option string :=
  match v with
  | None => None
  | Some JNull => None
  | Some (JStr s) => Some s
  | Some j => cast_other j
  end.

(** [required: true] on a [String] path: a value must be there, and the
    empty string does not count. *)
Definition required (v : jsval) : option string :=
  match castString v with
  | Some s => if bool_decide (s = "") then None else Some s
  | None => None
  end.

Definition failing (path : string) (v : jsval) : list string :=
  match required v with Some _ => [] | None => [path] end.

(** Validation of a new [User] against [userSchema]. *)
Definition validate_user (d : User.init) : User.doc + list string :=
  match required (User.i_firstName d), required (User.i_lastName d),
        required (User.i_email d), required (User.i_password d) with
  | Some f, Some l, Some e, Some p => inl (User.Doc f l e p)
  | _, _, _, _ =>
      inr (failing "firstName" (User.i_firstName d)
           ++ failing "lastName" (User.i_lastName d)
           ++ failing "email" (User.i_email d)
           ++ failing "password" (User.i_password d))%list
  end.

(** Validation of a new [Contact] against [contactSchema]; the dates are
    set when the document is saved. *)
Definition validate_contact (d : Contact.init) (t : nat) : Contact.doc + list string :=
  match required (Contact.i_name d), required (Contact.i_email d),
        required (Contact.i_message d) with
  | Some n, Some e, Some m => inl (Contact.Doc n e m t t)
  | _, _, _ =>
      inr (failing "name" (Contact.i_name d)
           ++ failing "email" (Contact.i_email d)
           ++ failing "message" (Contact.i_message d))%list
  end.

(** [User.findOne({ email })]: the first document whose email is exactly
    the given string. *)
Definition findOne (email : jsval) (us : list User.doc) : option User.doc :=
  match email with
  | Some (JStr s) => List.find (λ u, bool_decide (User.email u = s)) us
  | _ => findOne_other email us
  end.

(** The unique index declared by [email: { ..., unique: true }]. *)
Definition email_taken (e : string) (us : list User.doc) : bool :=
  bool_decide (e ∈ User.email <$> us).

(** The reference environment: how each call is answered and what it
    changes. *)
Definition perform (w : World) (c : Call) : (Answer c + JsError) * World :=
  match c as c0 return (Answer c0 + JsError) * World with
  | User_findOne email =>
      if db_connected w then (inl (findOne email (users w)), w)
      else (inr MongoNotConnected, w)
  | User_save d =>
      match validate_user d with
      | inr paths => (inr (ValidationError paths), w)
      | inl u =>
          if negb (db_connected w) then (inr MongoNotConnected, w)
          else if email_taken (User.email u) (users w)
               then (inr (DuplicateKey "email"), w)
               else (inl u, set_users (users w ++ [u])%list w)
      end
  | Contact_save d =>
      match validate_contact d (now w) with
      | inr paths => (inr (ValidationError paths), w)
      | inl c =>
          if negb (db_connected w) then (inr MongoNotConnected, w)
          else (inl c, set_contacts (contacts w ++ [c])%list w)
      end
  | Contact_find =>
      if db_connected w then (inl (contacts w), w)
      else (inr MongoNotConnected, w)
  | bcrypt_hash data rounds =>
      match data with
      | Some (JStr s) => (inl (bcrypt_kdf s rounds (next_salt w)), draw_salt w)
      | _ => (inr BcryptArgumentError, w)
      end
  | bcrypt_compare data encrypted =>
      match data with
      | Some (JStr s) => (inl (bcrypt_check s encrypted), w)
      | _ => (inr BcryptArgumentError, w)
      end
  | axios_post url data => (axios_outcome (upstream w url data), w)
  | console_error _ _ => (inl (), w)
  end.

(** Running a handler to its end, with no other request in between. *)
Fixpoint run {R : Type} (p : prog R) (w : World) : Outcome R :=
  match p with
  | Ret r => {| result := inl r; final := w; trace := [] |}
  | Throw e => {| result := inr e; final := w; trace := [] |}
  | Perform c k =>
      let '(a, w') := perform w c in
      let o := run (k a) w' in
      {| result := result o; final := final o;
         trace := {| call := c; reply := a |} :: trace o |}
  end.

(** One turn of the event loop for a handler: it runs up to and including
    its next call, then yields. *)
Definition resume {R : Type} (p : prog R) (w : World) : prog R * World :=
  match p with
  | Perform c k => let '(a, w') := perform w c in (k a, w')
  | _ => (p, w)
  end.

(** The event loop on a pool of requests in flight: [schedule] names, turn
    by turn, the handler that is resumed. *)
Fixpoint event_loop {R : Type} (schedule : list nat) (pool : list (prog R))
    (w : World) : list (prog R) * World :=
  match schedule with
  | [] => (pool, w)
  | i :: rest =>
      match pool !! i with
      | Some p =>
          let '(p', w') := resume p w in
          event_loop rest (<[i := p']> pool) w'
      | None => event_loop rest pool w
      end
  end.

(** Serving one request. *)
Definition serve (req : Request) (w : World) : Outcome Response :=
  run (route req) w.

(** Serving requests one after the other. *)
Definition serve_all (reqs : list Request) (w : World) : World :=
  foldl (λ w req, final (serve req w)) w reqs.

(** ** Vocabulary of the specification *)

(** The two failures of the Account Service, as they reach the caller. *)
Definition InvalidCredentials : Response :=
  res_status_json 401 (message_body "Invalid email or password").

Definition DuplicateAccount : Response :=
  res_status_json 400 (message_body "User already exists").

(** The documents written to the [users] collection by the calls of a
    trace: the [save]s that resolved. *)
Definition user_written (ev : Event) : option User.doc :=
  match call ev as c return Answer c + JsError → option User.doc with
  | User_save _ => λ r, match r with inl u => Some u | inr _ => None end
  | _ => λ _, None
  end (reply ev).

Definition writes (t : list Event) : list User.doc :=
  omap user_written t.

(** The requests a trace sent out over HTTP: address and payload. *)
Definition post_sent (ev : Event) : option (string * list (string * jsval)) :=
  match call ev with
  | axios_post url data => Some (url, data)
  | _ => None
  end.

Definition outbound (t : list Event) : list (string * list (string * jsval)) :=
  omap post_sent t.

(** The cost factors a trace passed to [bcrypt.hash]. *)
Definition hash_cost (ev : Event) : option nat :=
  match call ev with
  | bcrypt_hash _ rounds => Some rounds
  | _ => None
  end.

Definition predict_fields : list string :=
  ["age"; "sex"; "bmi"; "children"; "smoker"; "region"].

(** A stored user with this email whose hash the password verifies
    against. *)
Definition credentials_match (w : World) (e pw : string) : Prop :=
  ∃ u, u ∈ users w ∧ User.email u = e ∧ bcrypt_check pw (User.password u) = true.

(** The login rule with two outcomes only: 200 exactly for matching
    credentials, 401 in every other case. *)
Definition login_two_outcomes (w : World) (e pw : string) : Prop :=
  let o := serve (POST_api_login (login_body e pw)) w in
  (credentials_match w e pw ↔ ∃ r, result o = inl r ∧ status r = 200)
  ∧ (¬ credentials_match w e pw → result o = inl InvalidCredentials).

(** The registration rule for every payload: 400 and no write when the
    email is taken, 201 and one write when it is not. *)
Definition signup_two_outcomes (w : World) (req_body : gmap string json)
    (e : string) : Prop :=
  let o := serve (POST_api_signup req_body) w in
  req_body !! "email" = Some (JStr e) →
  (e ∈ User.email <$> users w →
     result o = inl DuplicateAccount ∧ writes (trace o) = [])
  ∧ (e ∉ User.email <$> users w →
     (∃ r, result o = inl r ∧ status r = 201) ∧ length (writes (trace o)) = 1).

(** The rule that a duplicate-key rejection of the insert is answered like
    the failed pre-check.  The handler has done its lookup in [w]; the
    rest of it runs in [w']. *)
Definition late_duplicate_is_400 (w w' : World) (req_body : gmap string json)
    : Prop :=
  let o := run (resume (post_api_signup req_body) w).1 w' in
  (∃ d ix, {| call := User_save d; reply := inr (DuplicateKey ix) |} ∈ trace o) →
  result o = inl DuplicateAccount.

(** ** Vocabulary of the handlers' observable behaviour *)

(** A program from which no exception escapes, whatever its calls are
    answered. *)
Fixpoint never_throws {R : Type} (p : prog R) : Prop :=
  match p with
  | Ret _ => True
  | Throw _ => False
  | Perform c k => ∀ a, never_throws (k a)
  end.

(** The status codes each route sends (the [res.status(...)] and
    [res.json(...)] calls of its handler). *)
Definition statuses_of (req : Request) : list nat :=
  match req with
  | POST_api_contact _ => [201; 500]
  | GET_api_contact => [200; 500]
  | POST_api_signup _ => [400; 201; 500]
  | POST_api_login _ => [401; 200; 500]
  | POST_predict _ => [200; 500]
  end.

(** The message of the [catch] block of each route. *)
Definition failure_message (req : Request) : string :=
  match req with
  | POST_api_contact _ => "Error saving contact message."
  | GET_api_contact => "Error fetching contact messages."
  | POST_api_signup _ => "Error registering user."
  | POST_api_login _ => "Error logging in."
  | POST_predict _ => "Error processing prediction request"
  end.

(** What a trace wrote to the console. *)
Definition log_entry (ev : Event) : option (string * JsError) :=
  match call ev with
  | console_error label error => Some (label, error)
  | _ => None
  end.

Definition logged (t : list Event) : list (string * JsError) :=
  omap log_entry t.


(** A field the request leaves out, or sends as [null] or as the empty
    string. *)
Definition blank (v : jsval) : Prop :=
  v = None ∨ v = Some JNull ∨ v = Some (JStr "").

(** A value that is not a JSON string. *)
Definition not_text (v : jsval) : Prop :=
  ∀ s, v ≠ Some (JStr s).

(** A stored user whose password field is an output of [bcrypt.hash] at the
    cost factor of the source. *)
Definition hashed (u : User.doc) : Prop :=
  ∃ pw salt, User.password u = bcrypt_kdf pw saltRounds salt.

(** Case analysis along the branches a handler takes in the environment. *)
Ltac handler_cases :=
  unfold mbind, mret, prog_mbind, prog_mret; simpl;
  repeat first [progress simplify_eq | progress simpl in * | case_match].

(** ** Lookups by email *)

Lemma find_email_elem (us : list User.doc) (e : string) (u : User.doc) :
  List.find (λ u, bool_decide (User.email u = e)) us = Some u →
  u ∈ us ∧ User.email u = e.
Proof.
  intros Hf. apply find_some in Hf as [Hin Hb].
  apply bool_decide_eq_true in Hb. by rewrite list_elem_of_In.
Qed.

Lemma find_email_none (us : list User.doc) (e : string) :
  e ∉ User.email <$> us →
  List.find (λ u, bool_decide (User.email u = e)) us = None.
Proof.
  induction us as [|v us IH]; [done|].
  rewrite fmap_cons, not_elem_of_cons. intros [Hne Hnin]. simpl.
  rewrite bool_decide_eq_false_2 by congruence. auto.
Qed.

Lemma find_email_app (us vs : list User.doc) (e : string) :
  e ∉ User.email <$> us →
  List.find (λ u, bool_decide (User.email u = e)) (us ++ vs)
  = List.find (λ u, bool_decide (User.email u = e)) vs.
Proof.
  induction us as [|v us IH]; [done|].
  rewrite fmap_cons, not_elem_of_cons. intros [Hne Hnin]. simpl.
  rewrite bool_decide_eq_false_2 by congruence. auto.
Qed.

Lemma find_email_unique (us : list User.doc) (e : string) (u : User.doc) :
  NoDup (User.email <$> us) → u ∈ us → User.email u = e →
  List.find (λ u, bool_decide (User.email u = e)) us = Some u.
Proof.
  induction us as [|v us IH]; intros Hnd Hin He.
  - by apply elem_of_nil in Hin.
  - rewrite fmap_cons in Hnd. apply NoDup_cons in Hnd as [Hv Hnd].
    apply elem_of_cons in Hin as [->|Hin]; simpl.
    + by rewrite bool_decide_eq_true_2.
    + rewrite bool_decide_eq_false_2; [by apply IH|].
      intros Hve. apply Hv. rewrite Hve, <- He.
      by apply list_elem_of_fmap_2.
Qed.

(** ** The login handler, case by case *)

Lemma login_offline (w : World) (req_body : gmap string json) :
  db_connected w = false →
  result (serve (POST_api_login req_body) w)
  = inl (res_status_json 500 (message_body "Error logging in.")).
Proof.
  intros Hdb. unfold serve, route, post_api_login. simpl. by rewrite Hdb.
Qed.

Lemma login_online (w : World) (req_body : gmap string json) (e pw : string) :
  req_body !! "email" = Some (JStr e) →
  req_body !! "password" = Some (JStr pw) →
  db_connected w = true →
  result (serve (POST_api_login req_body) w)
  = inl match List.find (λ u, bool_decide (User.email u = e)) (users w) with
        | Some u =>
            if bcrypt_check pw (User.password u)
            then res_status_json 200
                   (Json (JObj [("message", JStr "Login successful");
                                ("name", JStr (User.firstName u))]))
            else InvalidCredentials
        | None => InvalidCredentials
        end.
Proof.
  intros He Hpw Hdb. unfold serve, route, post_api_login.
  rewrite He, Hpw. simpl. rewrite Hdb. simpl.
  destruct (List.find _ (users w)) as [u|]; simpl; [|done].
  by destruct (bcrypt_check pw (User.password u)).
Qed.

(** C1 (amended).  For a text email and a text password, and a store whose
    emails are unique: while the database is connected, login answers 200
    exactly when a stored user has that email and the password verifies
    against that user's hash, and answers 401 InvalidCredentials in every
    other case; while the database is not connected, the lookup throws and
    login answers 500 "Error logging in.". *)
Theorem login_outcomes (w : World) (req_body : gmap string json) (e pw : string) :
  req_body !! "email" = Some (JStr e) →
  req_body !! "password" = Some (JStr pw) →
  NoDup (User.email <$> users w) →
  let o := serve (POST_api_login req_body) w in
  (db_connected w = true →
     (credentials_match w e pw ↔ ∃ r, result o = inl r ∧ status r = 200)
     ∧ (¬ credentials_match w e pw → result o = inl InvalidCredentials))
  ∧ (db_connected w = false →
     result o = inl (res_status_json 500 (message_body "Error logging in."))).
Proof.
  intros He Hpw Hnd o. split; [|by apply login_offline].
  intros Hdb. subst o. rewrite (login_online w req_body e pw He Hpw Hdb).
  destruct (List.find _ (users w)) as [u|] eqn:Hf.
  - apply find_email_elem in Hf as Hu. destruct Hu as [Hin Hue].
    destruct (bcrypt_check pw (User.password u)) eqn:Hck.
    + split; [|intros Hno; destruct Hno; by exists u].
      split; [by eexists|]. intros _. by exists u.
    + assert (¬ credentials_match w e pw) as Hno.
      { intros (v & Hv & Hve & Hvc).
        rewrite (find_email_unique _ _ _ Hnd Hv Hve) in Hf.
        injection Hf as ->. congruence. }
      split; [|done]. split; [done|].
      intros (r & Hr & Hs). injection Hr as <-. discriminate Hs.
  - assert (¬ credentials_match w e pw) as Hno.
    { intros (v & Hv & Hve & _).
      rewrite (find_email_unique _ _ _ Hnd Hv Hve) in Hf. discriminate Hf. }
    split; [|done]. split; [done|].
    intros (r & Hr & Hs). injection Hr as <-. discriminate Hs.
Qed.

(** With a text password, a login for an email that no stored user has and a
    login for a stored email whose password does not verify receive the same
    response: status 401 and the body [{message: "Invalid email or
    password"}]. *)
Theorem login_failures_identical
    (w1 w2 : World) (body1 body2 : gmap string json)
    (e1 e2 pw2 : string) (u : User.doc) :
  db_connected w1 = true →
  body1 !! "email" = Some (JStr e1) →
  e1 ∉ User.email <$> users w1 →
  db_connected w2 = true →
  body2 !! "email" = Some (JStr e2) →
  body2 !! "password" = Some (JStr pw2) →
  NoDup (User.email <$> users w2) →
  u ∈ users w2 → User.email u = e2 →
  bcrypt_check pw2 (User.password u) = false →
  result (serve (POST_api_login body1) w1) = result (serve (POST_api_login body2) w2)
  ∧ result (serve (POST_api_login body1) w1)
    = inl (res_status_json 401 (message_body "Invalid email or password")).
Proof.
  intros Hdb1 He1 Hno Hdb2 He2 Hpw2 Hnd Hin Hue Hck.
  rewrite (login_online w2 body2 e2 pw2 He2 Hpw2 Hdb2).
  rewrite (find_email_unique _ _ _ Hnd Hin Hue), Hck.
  assert (result (serve (POST_api_login body1) w1) = inl InvalidCredentials) as ->;
    [|done].
  unfold serve, route, post_api_login. rewrite He1. simpl. rewrite Hdb1. simpl.
  by rewrite (find_email_none _ _ Hno).
Qed.

(** ** The signup handler, case by case *)

Lemma castString_text (s : string) : castString (Some (JStr s)) = Some s.
Proof. done. Qed.

Lemma required_text (s : string) : s ≠ "" → required (Some (JStr s)) = Some s.
Proof. intros Hs. unfold required. simpl. by rewrite bool_decide_eq_false_2. Qed.

Lemma required_castString (v : jsval) (s : string) :
  required v = Some s → castString v = Some s ∧ s ≠ "".
Proof.
  unfold required. destruct (castString v) as [t|]; [|done].
  case_bool_decide; [done|]. intros [= ->]. done.
Qed.

Lemma find_email_is_Some (us : list User.doc) (e : string) :
  e ∈ User.email <$> us →
  is_Some (List.find (λ u, bool_decide (User.email u = e)) us).
Proof.
  intros Hin. destruct (List.find _ us) as [u|] eqn:Hf; [by eexists|].
  apply list_elem_of_fmap in Hin as (v & -> & Hv).
  apply list_elem_of_In in Hv.
  apply (find_none _ _ Hf) in Hv. by apply bool_decide_eq_false in Hv.
Qed.

Lemma signup_duplicate (w : World) (req_body : gmap string json) (e : string) :
  req_body !! "email" = Some (JStr e) →
  db_connected w = true →
  e ∈ User.email <$> users w →
  ∃ u, serve (POST_api_signup req_body) w
       = {| result := inl DuplicateAccount; final := w;
            trace := [ {| call := User_findOne (Some (JStr e));
                          reply := inl (Some u) |} ] |}.
Proof.
  intros He Hdb Hin. destruct (find_email_is_Some _ _ Hin) as [u Hu].
  exists u. unfold serve, route, post_api_signup. rewrite He. simpl.
  rewrite Hdb. simpl. by rewrite Hu.
Qed.

Lemma signup_fresh (w : World) (req_body : gmap string json) (f l e pw : string) :
  req_body !! "firstName" = Some (JStr f) →
  req_body !! "lastName" = Some (JStr l) →
  req_body !! "email" = Some (JStr e) →
  req_body !! "password" = Some (JStr pw) →
  f ≠ "" → l ≠ "" → e ≠ "" →
  db_connected w = true →
  e ∉ User.email <$> users w →
  let h := bcrypt_kdf pw saltRounds (next_salt w) in
  let u := User.Doc f l e h in
  serve (POST_api_signup req_body) w
  = {| result := inl (res_status_json 201 (message_body "User registered successfully"));
       final := set_users (users w ++ [u]) (draw_salt w);
       trace := [ {| call := User_findOne (Some (JStr e)); reply := inl None |};
                  {| call := bcrypt_hash (Some (JStr pw)) saltRounds; reply := inl h |};
                  {| call := User_save (User.Init (Some (JStr f)) (Some (JStr l))
                                          (Some (JStr e)) (Some (JStr h)));
                     reply := inl u |} ] |}.
Proof.
  intros Hf Hl He Hpw Hfne Hlne Hene Hdb Hnin h u.
  unfold serve, route, post_api_signup. rewrite Hf, Hl, He, Hpw. simpl.
  rewrite Hdb. simpl. rewrite (find_email_none _ _ Hnin). simpl.
  unfold validate_user. simpl.
  rewrite !required_text by (done || apply bcrypt_kdf_nonempty).
  simpl. rewrite Hdb. simpl.
  unfold email_taken. rewrite bool_decide_eq_false_2 by done. done.
Qed.

(** C2 (amended).  For a registration payload with a text email, while the
    database is connected: if a stored user has that email, the answer is
    400 [{message: "User already exists"}] whatever the other fields are,
    and nothing is written; if no stored user has it and the payload is
    valid (non-empty text firstName, lastName and email, a text password),
    the answer is 201 and exactly one user document is written. *)
Theorem signup_outcomes (w : World) (req_body : gmap string json) (e : string) :
  req_body !! "email" = Some (JStr e) →
  db_connected w = true →
  let o := serve (POST_api_signup req_body) w in
  (e ∈ User.email <$> users w →
     result o = inl (res_status_json 400 (message_body "User already exists"))
     ∧ writes (trace o) = [] ∧ users (final o) = users w)
  ∧ (e ∉ User.email <$> users w →
     ∀ f l pw,
       req_body !! "firstName" = Some (JStr f) →
       req_body !! "lastName" = Some (JStr l) →
       req_body !! "password" = Some (JStr pw) →
       f ≠ "" → l ≠ "" → e ≠ "" →
       result o = inl (res_status_json 201 (message_body "User registered successfully"))
       ∧ ∃ u, writes (trace o) = [u] ∧ users (final o) = users w ++ [u]).
Proof.
  intros He Hdb o. subst o. split.
  - intros Hin. destruct (signup_duplicate w req_body e He Hdb Hin) as [u ->].
    done.
  - intros Hnin f l pw Hf Hl Hpw Hfne Hlne Hene.
    rewrite (signup_fresh w req_body f l e pw) by done.
    split; [done|]. by eexists.
Qed.

Lemma validate_user_inl (d : User.init) (u : User.doc) :
  validate_user d = inl u →
  required (User.i_firstName d) = Some (User.firstName u)
  ∧ required (User.i_lastName d) = Some (User.lastName u)
  ∧ required (User.i_email d) = Some (User.email u)
  ∧ required (User.i_password d) = Some (User.password u).
Proof.
  unfold validate_user.
  destruct (required (User.i_firstName d)), (required (User.i_lastName d)),
    (required (User.i_email d)), (required (User.i_password d));
    intros [= <-]; done.
Qed.

(** C5.  A registration that wrote a user document answers 201; and when
    registration answers 201, the supplied password is a text value and
    exactly one user document has been appended to the store, whose
    firstName, lastName and email are the supplied values (as Mongoose stores
    them at a String path, which for a text value is the value itself) and
    whose password is what [bcrypt.hash] returned for the supplied plaintext
    at cost factor 10. *)
Theorem signup_stores_hashed_record
    (w : World) (req_body : gmap string json) (r : Response) :
  let o := serve (POST_api_signup req_body) w in
  result o = inl r →
  (writes (trace o) ≠ [] → status r = 201)
  ∧ (status r = 201 →
     ∃ pw u,
       req_body !! "password" = Some (JStr pw)
       ∧ users (final o) = users w ++ [u]
       ∧ writes (trace o) = [u]
       ∧ castString (req_body !! "firstName") = Some (User.firstName u)
       ∧ castString (req_body !! "lastName") = Some (User.lastName u)
       ∧ castString (req_body !! "email") = Some (User.email u)
       ∧ User.password u = bcrypt_kdf pw 10 (next_salt w)).
Proof.
  intros o. subst o. unfold serve, route, post_api_signup. simpl.
  destruct (db_connected w) eqn:Hdb; simpl; [|intros [= <-]; done].
  destruct (findOne (req_body !! "email") (users w)); simpl;
    [intros [= <-]; done|].
  destruct (req_body !! "password") as [[| | |pw| |]|]; simpl;
    try (intros [= <-]; done).
  destruct (validate_user _) as [u|paths] eqn:Hv; simpl;
    [|intros [= <-]; done].
  rewrite Hdb. simpl.
  destruct (email_taken _ _); simpl; [intros [= <-]; done|].
  intros [= <-]. split; [done|]. intros _. exists pw, u.
  apply validate_user_inl in Hv as (Hf & Hl & He & Hp). simpl in *.
  apply required_castString in Hf as [Hf _], Hl as [Hl _], He as [He _].
  apply required_castString in Hp as [Hp _]. simpl in Hp.
  injection Hp as Hp. done.
Qed.

(** C8 (amended).  Let a valid registration pass its lookup in a world where
    the email is free, and let the rest of the handler run in a world where
    a user with that email has been stored in the meantime.  Then the
    insert is rejected by the unique index with a duplicate-key error, the
    [catch] block logs it and answers 500 [{message: "Error registering
    user."}], and nothing is written. *)
Theorem late_duplicate_is_a_storage_error
    (w w' : World) (req_body : gmap string json) (f l e pw : string) :
  req_body !! "firstName" = Some (JStr f) →
  req_body !! "lastName" = Some (JStr l) →
  req_body !! "email" = Some (JStr e) →
  req_body !! "password" = Some (JStr pw) →
  f ≠ "" → l ≠ "" → e ≠ "" →
  db_connected w = true → e ∉ User.email <$> users w →
  db_connected w' = true → e ∈ User.email <$> users w' →
  let o := run (resume (post_api_signup req_body) w).1 w' in
  let h := bcrypt_kdf pw saltRounds (next_salt w') in
  let d := User.Init (Some (JStr f)) (Some (JStr l)) (Some (JStr e)) (Some (JStr h)) in
  result o = inl (res_status_json 500 (message_body "Error registering user."))
  ∧ users (final o) = users w'
  ∧ trace o = [ {| call := bcrypt_hash (Some (JStr pw)) saltRounds; reply := inl h |};
                {| call := User_save d; reply := inr (DuplicateKey "email") |};
                {| call := console_error "Error registering user:" (DuplicateKey "email");
                   reply := inl () |} ].
Proof.
  intros Hf Hl He Hpw Hfne Hlne Hene Hdb Hnin Hdb' Hin o h d. subst o h d.
  unfold post_api_signup. rewrite Hf, Hl, He, Hpw. simpl.
  rewrite Hdb. simpl. rewrite (find_email_none _ _ Hnin). simpl.
  unfold validate_user. simpl.
  rewrite !required_text by (done || apply bcrypt_kdf_nonempty).
  simpl. rewrite Hdb'. simpl.
  unfold email_taken. rewrite bool_decide_eq_true_2 by done. done.
Qed.

(** ** The contact handlers *)

Lemma validate_contact_inl (d : Contact.init) (t : nat) (c : Contact.doc) :
  validate_contact d t = inl c →
  required (Contact.i_name d) = Some (Contact.name c)
  ∧ required (Contact.i_email d) = Some (Contact.email c)
  ∧ required (Contact.i_message d) = Some (Contact.message c).
Proof.
  unfold validate_contact.
  destruct (required (Contact.i_name d)), (required (Contact.i_email d)),
    (required (Contact.i_message d)); intros [= <-]; done.
Qed.

(** What a call leaves of the [contacts] collection and of the connection. *)
Lemma perform_contacts (w : World) (c : Call) :
  db_connected (perform w c).2 = db_connected w
  ∧ contacts w `prefix_of` contacts (perform w c).2.
Proof.
  destruct c as [v|d|d| |[[]|] ?|[[]|] ?|?|?]; simpl;
    repeat (case_match; simpl); try done;
    split; try done; by apply prefix_app_r.
Qed.

Lemma run_contacts {R : Type} (p : prog R) (w : World) :
  db_connected (final (run p w)) = db_connected w
  ∧ contacts w `prefix_of` contacts (final (run p w)).
Proof.
  revert w. induction p as [r|e|c k IH]; intros w; simpl; [done..|].
  destruct (perform_contacts w c) as [Hdb Hpre].
  destruct (perform w c) as [a w1]. simpl in *.
  destruct (IH a w1) as [Hdb1 Hpre1]. split; [congruence|].
  by etrans.
Qed.

Lemma serve_all_contacts (reqs : list Request) (w : World) :
  db_connected (serve_all reqs w) = db_connected w
  ∧ contacts w `prefix_of` contacts (serve_all reqs w).
Proof.
  revert w. induction reqs as [|req reqs IH]; intros w; [done|].
  unfold serve_all. simpl. fold (serve_all reqs (final (serve req w))).
  destruct (run_contacts (route req) w) as [Hdb Hpre].
  destruct (IH (final (serve req w))) as [Hdb1 Hpre1]. unfold serve in *.
  split; [congruence|]. by etrans.
Qed.

(** C6.  After a contact submission that answered 201, a listing (directly
    afterwards, or after any further requests served in between) answers
    200 with a sequence that contains a Contact whose name, email and
    message are the submitted ones (as Mongoose stores them at a String
    path, which for a text value is the value itself). *)
Theorem submitted_contact_is_listed
    (w : World) (req_body : gmap string json) (r : Response)
    (between : list Request) :
  let o := serve (POST_api_contact req_body) w in
  result o = inl r → status r = 201 →
  ∃ c listed,
    result (serve GET_api_contact (serve_all between (final o)))
    = inl (res_status_json 200 (ContactDocs listed))
    ∧ c ∈ listed
    ∧ castString (req_body !! "name") = Some (Contact.name c)
    ∧ castString (req_body !! "email") = Some (Contact.email c)
    ∧ castString (req_body !! "message") = Some (Contact.message c).
Proof.
  intros o. subst o.
  destruct (serve_all_contacts between
              (final (serve (POST_api_contact req_body) w))) as [Hdb Hpre].
  revert Hdb Hpre. generalize (serve_all between).
  unfold serve, route, post_api_contact, get_api_contact. simpl.
  destruct (validate_contact _ _) as [c|paths] eqn:Hv; simpl;
    [|intros ? _ _ [= <-]; done].
  destruct (db_connected w) eqn:Hw; simpl; [|intros ? _ _ [= <-]; done].
  intros after Hdb Hpre _ _. rewrite Hdb, Hw. simpl.
  exists c, (contacts (after (set_contacts (contacts w ++ [c]) w))).
  apply validate_contact_inl in Hv as (Hn & He & Hm). simpl in *.
  apply required_castString in Hn as [Hn _], He as [He _], Hm as [Hm _].
  repeat split; try done.
  destruct Hpre as [more Heq]. rewrite Heq.
  rewrite !elem_of_app. left. right. by apply list_elem_of_singleton.
Qed.

(** ** The prediction proxy *)

Lemma predict_run (w : World) (req_body : gmap string json) :
  serve (POST_predict req_body) w
  = match axios_outcome (upstream w predict_url (predict_payload req_body)) with
    | inl response =>
        {| result := inl (res_status_json 200 (Json (ax_data response)));
           final := w;
           trace := [ {| call := axios_post predict_url (predict_payload req_body);
                         reply := inl response |} ] |}
    | inr error =>
        {| result := inl (res_status_json 500
                            (message_body "Error processing prediction request"));
           final := w;
           trace := [ {| call := axios_post predict_url (predict_payload req_body);
                         reply := inr error |};
                      {| call := console_error "Error calling FastAPI:" error;
                         reply := inl () |} ] |}
    end.
Proof.
  unfold serve, route, post_predict. simpl.
  by destruct (axios_outcome _).
Qed.

(** C7.  The prediction handler sends exactly one HTTP POST, to the fixed
    address [http://localhost:8000/predict], whose payload holds the six
    fields age, sex, bmi, children, smoker and region with the values of the
    request body.  If the service replies with a 2xx status, the handler
    answers 200 with the service's body unchanged; if the service is
    unreachable, times out, or replies with another status, the handler
    answers 500 [{message: "Error processing prediction request"}]. *)
Theorem predict_relays (w : World) (req_body : gmap string json) :
  let sent := predict_payload req_body in
  let o := serve (POST_predict req_body) w in
  let failure :=
    res_status_json 500 (message_body "Error processing prediction request") in
  sent = (λ k, (k, req_body !! k)) <$> predict_fields
  ∧ outbound (trace o) = [("http://localhost:8000/predict", sent)]
  ∧ (∀ st d, upstream w predict_url sent = Replied st d →
             200 ≤ st < 300 → result o = inl (res_status_json 200 (Json d)))
  ∧ (∀ st d, upstream w predict_url sent = Replied st d →
             ¬ (200 ≤ st < 300) → result o = inl failure)
  ∧ (upstream w predict_url sent = Unreachable → result o = inl failure)
  ∧ (upstream w predict_url sent = TimedOut → result o = inl failure).
Proof.
  intros sent o failure. subst sent o failure. rewrite predict_run.
  split; [done|]. split; [by destruct (axios_outcome _)|].
  repeat split.
  - intros st d -> [Hlo Hhi]. unfold axios_outcome.
    apply Nat.leb_le in Hlo. apply Nat.ltb_lt in Hhi. by rewrite Hlo, Hhi.
  - intros st d -> Hst. unfold axios_outcome.
    destruct (200 <=? st) eqn:Hlo; [|done].
    destruct (st <? 300) eqn:Hhi; [|done].
    apply Nat.leb_le in Hlo. apply Nat.ltb_lt in Hhi. lia.
  - by intros ->.
  - by intros ->.
Qed.

(** C10.  The prediction handler sends exactly one request, to the fixed
    address, and its payload holds exactly the six fields age, sex, bmi,
    children, smoker and region, each with the value the request body has
    for it: no other field of the body is in the payload.  Hence two bodies
    that agree on the six fields make the handler send the same request,
    whatever else they contain and whatever the world. *)
Theorem predict_forwards_only_named_fields
    (w1 w2 : World) (body1 body2 : gmap string json) :
  outbound (trace (serve (POST_predict body1) w1))
  = [("http://localhost:8000/predict",
      [("age", body1 !! "age"); ("sex", body1 !! "sex"); ("bmi", body1 !! "bmi");
       ("children", body1 !! "children"); ("smoker", body1 !! "smoker");
       ("region", body1 !! "region")])]
  ∧ ((∀ k, k ∈ ["age"; "sex"; "bmi"; "children"; "smoker"; "region"] →
           body1 !! k = body2 !! k) →
     outbound (trace (serve (POST_predict body1) w1))
     = outbound (trace (serve (POST_predict body2) w2))).
Proof.
  assert (∀ w b, outbound (trace (serve (POST_predict b) w))
                 = [(predict_url, predict_payload b)]) as Hsent.
  { intros w b. rewrite predict_run. by destruct (axios_outcome _). }
  split; [by rewrite Hsent|].
  intros Hagree. rewrite !Hsent. unfold predict_payload.
  rewrite !(Hagree _) by set_solver. done.
Qed.

(** ** The [users] collection only grows *)

(** A call either leaves the collection alone or is a [save] that appends
    the validated document. *)
Lemma perform_users (w : World) (c : Call) :
  users (perform w c).2 = users w
  ∨ ∃ d u, c = User_save d ∧ validate_user d = inl u
           ∧ email_taken (User.email u) (users w) = false
           ∧ users (perform w c).2 = users w ++ [u].
Proof.
  destruct c as [v|d|d| |[[]|] ?|[[]|] ?|?|?]; simpl;
    repeat (case_match; simpl); eauto 10.
Qed.

Lemma run_users_prefix {R : Type} (p : prog R) (w : World) :
  users w `prefix_of` users (final (run p w)).
Proof.
  revert w. induction p as [r|e|c k IH]; intros w; simpl; [done..|].
  pose proof (perform_users w c) as Hc.
  destruct (perform w c) as [a w1]. simpl in *.
  etrans; [|apply IH].
  destruct Hc as [->|(d & u & _ & _ & _ & ->)]; [done|by apply prefix_app_r].
Qed.

Lemma resume_users_prefix {R : Type} (p : prog R) (w : World) :
  users w `prefix_of` users (resume p w).2.
Proof.
  destruct p as [r|e|c k]; simpl; [done..|].
  pose proof (perform_users w c) as Hc.
  destruct (perform w c) as [a w1]. simpl in *.
  destruct Hc as [->|(d & u & _ & _ & _ & ->)]; [done|by apply prefix_app_r].
Qed.

(** However the event loop interleaves the handlers in flight, the stored
    users stay where they are. *)
Lemma event_loop_users_prefix {R : Type} (schedule : list nat)
    (pool : list (prog R)) (w : World) :
  users w `prefix_of` users (event_loop schedule pool w).2.
Proof.
  revert pool w. induction schedule as [|i rest IH]; intros pool w; simpl; [done|].
  destruct (pool !! i) as [p|]; [|apply IH].
  pose proof (resume_users_prefix p w) as Hp.
  destruct (resume p w) as [p' w']. simpl in *. etrans; [exact Hp|apply IH].
Qed.

Lemma serve_all_users_prefix (reqs : list Request) (w : World) :
  users w `prefix_of` users (serve_all reqs w).
Proof.
  revert w. induction reqs as [|req reqs IH]; intros w; [done|].
  unfold serve_all. simpl. fold (serve_all reqs (final (serve req w))).
  etrans; [apply (run_users_prefix (route req) w)|apply IH].
Qed.

(** The collection after a call is the collection before it followed by
    what the call wrote. *)
Lemma perform_users_writes (w : World) (c : Call) :
  users (perform w c).2
  = users w ++ option_list (user_written {| call := c; reply := (perform w c).1 |}).
Proof.
  destruct c as [v|d|d| |[[]|] ?|[[]|] ?|?|?]; simpl;
    repeat (case_match; simpl); by rewrite ?app_nil_r.
Qed.

Lemma run_users_writes {R : Type} (p : prog R) (w : World) :
  users (final (run p w)) = users w ++ writes (trace (run p w)).
Proof.
  revert w. induction p as [r|e|c k IH]; intros w; simpl;
    [by rewrite app_nil_r..|].
  pose proof (perform_users_writes w c) as Hc.
  destruct (perform w c) as [a w1]. simpl in *.
  rewrite IH, Hc, <- app_assoc. f_equal.
  unfold writes. simpl. by destruct (user_written _).
Qed.

(** C9.  Serving a request never changes or removes a stored user: the
    collection after the request is the collection before it followed by the
    documents the request inserted.  Login, both contact routes and the
    prediction route insert nothing, so they leave the collection as it is;
    registration inserts at most one document. *)
Theorem users_never_updated_or_deleted (req : Request) (w : World) :
  let o := serve req w in
  users (final o) = users w ++ writes (trace o)
  ∧ users w `prefix_of` users (final o)
  ∧ match req with
    | POST_api_signup _ => length (writes (trace o)) ≤ 1
    | _ => writes (trace o) = [] ∧ users (final o) = users w
    end.
Proof.
  intros o. subst o. split; [apply run_users_writes|].
  split; [apply run_users_prefix|].
  destruct req as [b| |b|b|b].
  - unfold serve, route, post_api_contact. handler_cases; done.
  - unfold serve, route, get_api_contact. handler_cases; done.
  - unfold serve, route, post_api_signup. handler_cases; lia.
  - unfold serve, route, post_api_login. handler_cases; done.
  - rewrite predict_run. by destruct (axios_outcome _).
Qed.

(** ** The unique index keeps emails unique *)

Lemma perform_unique_emails (w : World) (c : Call) :
  NoDup (User.email <$> users w) → NoDup (User.email <$> users (perform w c).2).
Proof.
  intros Hnd.
  destruct (perform_users w c) as [->|(d & u & _ & _ & Hfree & ->)]; [done|].
  rewrite fmap_app. simpl. apply NoDup_app. split; [done|].
  apply bool_decide_eq_false in Hfree.
  split; [|apply NoDup_singleton].
  intros e He ->%list_elem_of_singleton. done.
Qed.

Lemma run_unique_emails {R : Type} (p : prog R) (w : World) :
  NoDup (User.email <$> users w) →
  NoDup (User.email <$> users (final (run p w))).
Proof.
  revert w. induction p as [r|e|c k IH]; intros w Hnd; simpl; [done..|].
  pose proof (perform_unique_emails w c Hnd) as Hc.
  destruct (perform w c) as [a w1]. simpl in *. by apply IH.
Qed.

Lemma serve_all_unique_emails (reqs : list Request) (w : World) :
  NoDup (User.email <$> users w) →
  NoDup (User.email <$> users (serve_all reqs w)).
Proof.
  revert w. induction reqs as [|req reqs IH]; intros w Hnd; [done|].
  unfold serve_all. simpl. fold (serve_all reqs (final (serve req w))).
  apply IH. by apply run_unique_emails.
Qed.

(** ** Registration followed by login *)

(** A login after a registration succeeds exactly when bcrypt verifies the
    login password against the hash it produced at registration: the round
    trip of the two handlers is the round trip of the library. *)
Lemma login_after_signup
    (w : World) (signup login : gmap string json) (f l e pw pw' : string) :
  signup !! "firstName" = Some (JStr f) →
  signup !! "lastName" = Some (JStr l) →
  signup !! "email" = Some (JStr e) →
  signup !! "password" = Some (JStr pw) →
  f ≠ "" → l ≠ "" → e ≠ "" →
  db_connected w = true →
  e ∉ User.email <$> users w →
  login !! "email" = Some (JStr e) →
  login !! "password" = Some (JStr pw') →
  ∃ r, result (serve (POST_api_login login) (final (serve (POST_api_signup signup) w)))
       = inl r
       ∧ (status r = 200
          ↔ bcrypt_check pw' (bcrypt_kdf pw saltRounds (next_salt w)) = true).
Proof.
  intros Hf Hl He Hpw Hfne Hlne Hene Hdb Hnin Hle Hlpw.
  rewrite (signup_fresh w signup f l e pw) by done. simpl.
  rewrite (login_online _ login e pw' Hle Hlpw) by done. simpl.
  rewrite find_email_app by done.
  simpl. rewrite bool_decide_eq_true_2 by done. simpl.
  destruct (bcrypt_check pw' _); eexists; (split; [done|]); done.
Qed.

(** ** The cost factor *)

(** Every [bcrypt.hash] a request leads to is called with cost factor 10. *)
Lemma hash_cost_is_10 (req : Request) (w : World) (n : nat) :
  n ∈ omap hash_cost (trace (serve req w)) → n = 10.
Proof.
  assert (∀ l : list nat, (l = [] ∨ l = [10]) → n ∈ l → n = 10) as Hsmall.
  { intros l [->| ->]; [by intros ?%elem_of_nil|by intros ?%list_elem_of_singleton]. }
  apply Hsmall. destruct req as [b| |b|b|b].
  - unfold serve, route, post_api_contact. handler_cases; auto.
  - unfold serve, route, get_api_contact. handler_cases; auto.
  - unfold serve, route, post_api_signup. handler_cases; auto.
  - unfold serve, route, post_api_login. handler_cases; auto.
  - rewrite predict_run. destruct (axios_outcome _); auto.
Qed.

(** ** No exception escapes a handler *)

Lemma never_throws_run {R : Type} (p : prog R) (w : World) :
  never_throws p → ∃ r, result (run p w) = inl r.
Proof.
  revert w. induction p as [r|e|c k IH]; intros w Hp; simpl in *.
  - by eexists.
  - done.
  - destruct (perform w c) as [a w1]. simpl. by apply IH.
Qed.

Lemma route_never_throws (req : Request) : never_throws (route req).
Proof.
  destruct req as [b| |b|b|b]; simpl;
    unfold mbind, mret, prog_mbind, prog_mret; simpl.
  - intros [c|e]; simpl; done.
  - intros [cs|e]; simpl; done.
  - intros [[u|]|e]; simpl; [done| |done].
    intros [h|e]; simpl; [|done]. intros [u|e]; simpl; done.
  - intros [[u|]|e]; simpl; [|done..].
    intros [[]|e]; simpl; done.
  - intros [response|e]; simpl; done.
Qed.

(** Every await of every handler sits inside its [try] block and no [catch]
    block throws: whatever the libraries answer, a handler ends by sending a
    response; in particular it does so in every world. *)
Theorem handlers_always_respond (req : Request) :
  never_throws (route req) ∧ ∀ w, ∃ r, result (serve req w) = inl r.
Proof.
  split; [apply route_never_throws|].
  intros w. apply never_throws_run, route_never_throws.
Qed.

(** ** Status codes and the console *)

(** The response of a route carries one of the status codes of its handler;
    it carries 500 exactly when the handler went through its [catch] block,
    which then wrote exactly one entry to the console and sent the fixed
    message of the route and nothing of the caught error. *)
Theorem status_and_log (req : Request) (w : World) :
  let o := serve req w in
  ∃ r, result o = inl r
       ∧ status r ∈ statuses_of req
       ∧ (status r = 500 ↔ logged (trace o) ≠ [])
       ∧ length (logged (trace o)) ≤ 1
       ∧ (status r = 500 → body r = message_body (failure_message req)).
Proof.
  intros o. subst o. destruct req as [b| |b|b|b].
  - unfold serve, route, post_api_contact. handler_cases;
      eexists; (split; [done|]); simpl; split_and!;
      try done; try lia; try set_solver.
  - unfold serve, route, get_api_contact. handler_cases;
      eexists; (split; [done|]); simpl; split_and!;
      try done; try lia; try set_solver.
  - unfold serve, route, post_api_signup. handler_cases;
      eexists; (split; [done|]); simpl; split_and!;
      try done; try lia; try set_solver.
  - unfold serve, route, post_api_login. handler_cases;
      eexists; (split; [done|]); simpl; split_and!;
      try done; try lia; try set_solver.
  - rewrite predict_run. destruct (axios_outcome _);
      eexists; (split; [done|]); simpl; split_and!;
      try done; try lia; try set_solver.
Qed.

(** ** Routes that only read *)

(** Login, the contact listing and the prediction proxy leave the world
    exactly as they found it, whatever they answer. *)
Theorem reading_routes_change_nothing (w : World) :
  (∀ b, final (serve (POST_api_login b) w) = w)
  ∧ final (serve GET_api_contact w) = w
  ∧ (∀ b, final (serve (POST_predict b) w) = w).
Proof.
  split_and!.
  - intros b. unfold serve, route, post_api_login. handler_cases; done.
  - unfold serve, route, get_api_contact. handler_cases; done.
  - intros b. rewrite predict_run. by destruct (axios_outcome _).
Qed.

(** ** The [contacts] collection *)

Lemma required_blank (v : jsval) : blank v → required v = None.
Proof. intros [->|[->| ->]]; done. Qed.

(** A contact submission in which name, email or message is missing, [null]
    or the empty string fails the schema's [required] validators: it is
    answered 500 with the route's fixed message, the validation error goes
    to the console only, and nothing is stored. *)
Theorem contact_with_blank_field_is_rejected (w : World) (req_body : gmap string json) :
  blank (req_body !! "name") ∨ blank (req_body !! "email")
  ∨ blank (req_body !! "message") →
  let o := serve (POST_api_contact req_body) w in
  result o = inl (res_status_json 500 (message_body "Error saving contact message."))
  ∧ final o = w
  ∧ ∃ paths, paths ≠ []
      ∧ logged (trace o) = [("Error saving contact message:", ValidationError paths)].
Proof.
  intros Hblank o. subst o. unfold serve, route, post_api_contact. simpl.
  unfold validate_contact, failing. simpl.
  destruct Hblank as [Hb|[Hb|Hb]]; apply required_blank in Hb; rewrite Hb;
    repeat (case_match; simpl in *; simplify_eq);
    split_and!; try done; eexists; (split; [|reflexivity]); discriminate.
Qed.

(** A contact submission with three non-empty text fields, while the
    database is connected, is answered 201 and appends one document holding
    the three fields, with both timestamps set to the time of the save;
    nothing else changes. *)
Theorem contact_submission_is_stored
    (w : World) (req_body : gmap string json) (n e m : string) :
  req_body !! "name" = Some (JStr n) →
  req_body !! "email" = Some (JStr e) →
  req_body !! "message" = Some (JStr m) →
  n ≠ "" → e ≠ "" → m ≠ "" →
  db_connected w = true →
  let o := serve (POST_api_contact req_body) w in
  result o = inl (res_status_json 201
                    (message_body "Contact message saved successfully."))
  ∧ final o = set_contacts (contacts w ++ [Contact.Doc n e m (now w) (now w)]) w
  ∧ logged (trace o) = [].
Proof.
  intros Hn He Hm Hnne Hene Hmne Hdb o. subst o.
  unfold serve, route, post_api_contact. rewrite Hn, He, Hm. simpl.
  unfold validate_contact. simpl. rewrite !required_text by done.
  simpl. rewrite Hdb. done.
Qed.

(** No route changes or removes a stored contact: only a contact submission
    touches the collection, and it appends at most one document, stamped
    with the time of the save. *)
Theorem contacts_never_updated_or_deleted (req : Request) (w : World) :
  let o := serve req w in
  contacts w `prefix_of` contacts (final o)
  ∧ match req with
    | POST_api_contact _ =>
        contacts (final o) = contacts w
        ∨ ∃ c, contacts (final o) = contacts w ++ [c]
               ∧ Contact.createdAt c = now w ∧ Contact.updatedAt c = now w
    | _ => contacts (final o) = contacts w
    end.
Proof.
  intros o. subst o. split; [apply run_contacts|].
  destruct req as [b| |b|b|b].
  - unfold serve, route, post_api_contact. simpl.
    unfold validate_contact.
    repeat (case_match; simpl; simplify_eq); eauto.
  - unfold serve, route, get_api_contact. handler_cases; done.
  - unfold serve, route, post_api_signup. handler_cases; done.
  - unfold serve, route, post_api_login. handler_cases; done.
  - rewrite predict_run. by destruct (axios_outcome _).
Qed.

(** ** Without a database connection *)

(** While the database is not connected no request changes the world, and
    every route but the prediction proxy answers 500 with its fixed
    message. *)
Theorem offline_routes_fail (req : Request) (w : World) :
  db_connected w = false →
  let o := serve req w in
  final o = w
  ∧ ((∃ b, req = POST_predict b)
     ∨ result o = inl (res_status_json 500 (message_body (failure_message req)))).
Proof.
  intros Hdb o. subst o. destruct req as [b| |b|b|b].
  - unfold serve, route, post_api_contact. simpl. rewrite Hdb.
    destruct (validate_contact _ _); simpl; auto.
  - unfold serve, route, get_api_contact. simpl. rewrite Hdb. simpl. auto.
  - unfold serve, route, post_api_signup. simpl. rewrite Hdb. simpl. auto.
  - unfold serve, route, post_api_login. simpl. rewrite Hdb. simpl. auto.
  - split; [|eauto]. rewrite predict_run. by destruct (axios_outcome _).
Qed.

(** The prediction proxy does not depend on the database: in two worlds
    whose prediction service answers this request alike, it answers alike,
    whatever the connection and the collections are. *)
Theorem predict_ignores_the_database
    (w1 w2 : World) (req_body : gmap string json) :
  upstream w1 predict_url (predict_payload req_body)
  = upstream w2 predict_url (predict_payload req_body) →
  result (serve (POST_predict req_body) w1) = result (serve (POST_predict req_body) w2)
  ∧ trace (serve (POST_predict req_body) w1) = trace (serve (POST_predict req_body) w2).
Proof.
  intros Hup. rewrite !predict_run, Hup. by destruct (axios_outcome _).
Qed.

(** ** Login: what the response and the trace show *)

(** A login answered 200 went through a connected database, found a user by
    the supplied email, received a text password that bcrypt verified
    against that user's stored hash, and reports that user's firstName and
    nothing else of the record; for a text email the user found is a stored
    user with exactly that email. *)
Theorem login_success_reports_first_name
    (w : World) (req_body : gmap string json) (r : Response) :
  result (serve (POST_api_login req_body) w) = inl r → status r = 200 →
  ∃ u pw,
    db_connected w = true
    ∧ findOne (req_body !! "email") (users w) = Some u
    ∧ req_body !! "password" = Some (JStr pw)
    ∧ bcrypt_check pw (User.password u) = true
    ∧ body r = Json (JObj [("message", JStr "Login successful");
                           ("name", JStr (User.firstName u))])
    ∧ (∀ e, req_body !! "email" = Some (JStr e) → u ∈ users w ∧ User.email u = e).
Proof.
  unfold serve, route, post_api_login. simpl.
  destruct (db_connected w) eqn:Hdb; simpl; [|intros [= <-]; done].
  destruct (findOne (req_body !! "email") (users w)) as [u|] eqn:Hu; simpl;
    [|intros [= <-]; done].
  destruct (req_body !! "password") as [[| | |pw| |]|]; simpl;
    try (intros [= <-]; done).
  destruct (bcrypt_check pw (User.password u)) eqn:Hck; simpl;
    [|intros [= <-]; done].
  intros [= <-] _. exists u, pw. split_and!; try done.
  intros e He. rewrite He in Hu. by apply find_email_elem.
Qed.



(** ** Registration: what is refused *)

(** A registration whose password is missing or is not a JSON string changes
    nothing: it is answered 400 (email found) or 500 (lookup failed, or
    [bcrypt.hash] rejected its argument), and no document is written. *)
Theorem signup_without_text_password (w : World) (req_body : gmap string json) :
  not_text (req_body !! "password") →
  let o := serve (POST_api_signup req_body) w in
  final o = w
  ∧ writes (trace o) = []
  ∧ ∃ r, result o = inl r ∧ (status r = 400 ∨ status r = 500).
Proof.
  intros Hnt o. subst o. unfold serve, route, post_api_signup. simpl.
  destruct (db_connected w); simpl; [|eauto 6].
  destruct (findOne _ _); simpl; [eauto 6|].
  destruct (req_body !! "password") as [[| | |pw| |]|]; simpl; eauto 6.
  by destruct (Hnt pw).
Qed.

(** A registration in which firstName, lastName or email is missing, [null]
    or the empty string is never answered 201 and writes no document. *)
Theorem signup_with_blank_field_writes_nothing
    (w : World) (req_body : gmap string json) :
  blank (req_body !! "firstName") ∨ blank (req_body !! "lastName")
  ∨ blank (req_body !! "email") →
  let o := serve (POST_api_signup req_body) w in
  users (final o) = users w
  ∧ writes (trace o) = []
  ∧ ∃ r, result o = inl r ∧ status r ≠ 201.
Proof.
  intros Hblank o. subst o. unfold serve, route, post_api_signup. simpl.
  destruct (db_connected w); simpl; [|by eauto 6].
  destruct (findOne _ _); simpl; [by eauto 6|].
  destruct (req_body !! "password") as [[| | |pw| |]|]; simpl; try by eauto 6.
  unfold validate_user. simpl.
  destruct Hblank as [Hb|[Hb|Hb]]; apply required_blank in Hb; rewrite Hb;
    repeat (case_match; simpl in *; simplify_eq); by eauto 6.
Qed.

(** ** Stored passwords *)

Lemma serve_writes_hashed (req : Request) (w : World) :
  Forall hashed (writes (trace (serve req w))).
Proof.
  destruct req as [b| |b|b|b].
  - unfold serve, route, post_api_contact. handler_cases; constructor.
  - unfold serve, route, get_api_contact. handler_cases; constructor.
  - unfold serve, route, post_api_signup. simpl.
    destruct (db_connected w) eqn:Hdb; simpl; [|constructor].
    destruct (findOne _ _); simpl; [constructor|].
    destruct (b !! "password") as [[| | |pw| |]|]; simpl; try constructor.
    destruct (validate_user _) as [u|paths] eqn:Hv; simpl; [|constructor].
    rewrite Hdb. simpl. destruct (email_taken _ _); simpl; [constructor|].
    apply validate_user_inl in Hv as (_ & _ & _ & Hp). simpl in Hp.
    apply required_castString in Hp as [Hp _]. injection Hp as Hp.
    repeat constructor. by exists pw, (next_salt w).
  - unfold serve, route, post_api_login. handler_cases; constructor.
  - rewrite predict_run. destruct (axios_outcome _); constructor.
Qed.

(** If every stored password is an output of [bcrypt.hash] at cost factor
    10, it stays so after any sequence of requests: no route ever stores a
    password it received. *)
Theorem stored_passwords_stay_hashed (reqs : list Request) (w : World) :
  Forall hashed (users w) → Forall hashed (users (serve_all reqs w)).
Proof.
  revert w. induction reqs as [|req reqs IH]; intros w Hw; [done|].
  unfold serve_all. simpl. fold (serve_all reqs (final (serve req w))).
  apply IH. unfold serve. rewrite run_users_writes.
  apply Forall_app. split; [done|apply serve_writes_hashed].
Qed.

(** ** Interleaved handlers *)

Lemma resume_unique_emails {R : Type} (p : prog R) (w : World) :
  NoDup (User.email <$> users w) → NoDup (User.email <$> users (resume p w).2).
Proof.
  intros Hnd. destruct p as [r|e|c k]; simpl; [done..|].
  pose proof (perform_unique_emails w c Hnd) as Hc.
  by destruct (perform w c) as [a w1].
Qed.

(** The unique index holds under concurrency: however the event loop
    interleaves whatever handlers are in flight, a store whose emails are
    unique keeps them unique. *)
Lemma event_loop_keeps_emails_unique {R : Type} (schedule : list nat)
    (pool : list (prog R)) (w : World) :
  NoDup (User.email <$> users w) →
  NoDup (User.email <$> users (event_loop schedule pool w).2).
Proof.
  revert pool w. induction schedule as [|i rest IH]; intros pool w Hnd; simpl;
    [done|].
  destruct (pool !! i) as [p|]; [|by apply IH].
  pose proof (resume_unique_emails p w Hnd) as Hp.
  destruct (resume p w) as [p' w']. by apply IH.
Qed.

(** ** Requests in sequence *)

(** While the database is connected, every contact stored now is in every
    later listing, whatever requests are served in between. *)
Theorem stored_contacts_stay_listed (reqs : list Request) (w : World) :
  db_connected w = true →
  ∃ listed,
    result (serve GET_api_contact (serve_all reqs w))
    = inl (res_status_json 200 (ContactDocs listed))
    ∧ ∀ c, c ∈ contacts w → c ∈ listed.
Proof.
  intros Hdb. destruct (serve_all_contacts reqs w) as [Hdb' Hpre].
  exists (contacts (serve_all reqs w)). split.
  - unfold serve, route, get_api_contact. simpl. by rewrite Hdb', Hdb.
  - intros c Hc. destruct Hpre as [more ->]. apply elem_of_app. by left.
Qed.

Lemma signup_created (w : World) (req_body : gmap string json) (r : Response) :
  result (serve (POST_api_signup req_body) w) = inl r → status r = 201 →
  db_connected w = true
  ∧ ∃ u, users (final (serve (POST_api_signup req_body) w)) = users w ++ [u]
         ∧ castString (req_body !! "email") = Some (User.email u).
Proof.
  unfold serve, route, post_api_signup. simpl.
  destruct (db_connected w) eqn:Hdb; simpl; [|intros [= <-]; done].
  destruct (findOne (req_body !! "email") (users w)); simpl;
    [intros [= <-]; done|].
  destruct (req_body !! "password") as [[| | |pw| |]|]; simpl;
    try (intros [= <-]; done).
  destruct (validate_user _) as [u|paths] eqn:Hv; simpl;
    [|intros [= <-]; done].
  rewrite Hdb. simpl.
  destruct (email_taken _ _); simpl; [intros [= <-]; done|].
  intros _ _. split; [done|]. exists u. split; [done|].
  apply validate_user_inl in Hv as (_ & _ & He & _). simpl in He.
  by apply required_castString in He as [He _].
Qed.

(** Registration succeeds once per email: after a registration with a text
    email was answered 201, every later registration with the same email is
    answered 400 [{message: "User already exists"}], whatever its other
    fields are and whatever requests are served in between, and writes
    nothing. *)
Theorem second_registration_is_refused
    (w : World) (first second : gmap string json) (e : string) (r : Response)
    (between : list Request) :
  first !! "email" = Some (JStr e) →
  second !! "email" = Some (JStr e) →
  result (serve (POST_api_signup first) w) = inl r → status r = 201 →
  let w' := serve_all between (final (serve (POST_api_signup first) w)) in
  result (serve (POST_api_signup second) w')
  = inl (res_status_json 400 (message_body "User already exists"))
  ∧ final (serve (POST_api_signup second) w') = w'.
Proof.
  intros He1 He2 Hr Hs w'.
  destruct (signup_created w first r Hr Hs) as (Hdb & u & Hu & Hue).
  rewrite He1 in Hue. injection Hue as Hue.
  assert (db_connected w' = true) as Hdb'.
  { subst w'. destruct (serve_all_contacts between
                          (final (serve (POST_api_signup first) w))) as [-> _].
    unfold serve. destruct (run_contacts (route (POST_api_signup first)) w) as [-> _].
    done. }
  assert (e ∈ User.email <$> users w') as Hin.
  { subst w'. destruct (serve_all_users_prefix between
                          (final (serve (POST_api_signup first) w))) as [more ->].
    rewrite Hu, !fmap_app, !elem_of_app. left. right.
    apply list_elem_of_singleton. done. }
  destruct (signup_duplicate w' second e He2 Hdb' Hin) as [v ->]. done.
Qed.

End Server.

(** * The theorems on sample requests *)

#[local] Existing Instance sample_libraries.

Lemma login_outcomes_witness :
  ∃ r, result (serve (POST_api_login (login_body "a@x.com" "pw1")) alice_world) = inl r
       ∧ status r = 200.
Proof.
  destruct (login_outcomes alice_world (login_body "a@x.com" "pw1") "a@x.com" "pw1")
    as [Hon _]; [reflexivity|reflexivity|apply NoDup_singleton|].
  destruct (Hon eq_refl) as [[Hok _] _]. apply Hok.
  exists alice. split; [by apply list_elem_of_singleton|]. split; reflexivity.
Defined.

(** With the database offline the login handler answers 500, whether the
    credentials match (where the two-outcome rule wants 200) or not (where it
    wants 401). *)
Lemma login_two_outcomes_counterexample :
  result (serve (POST_api_login (login_body "a@x.com" "pw1")) offline_world)
  = inl (res_status_json 500 (message_body "Error logging in."))
  ∧ ¬ login_two_outcomes offline_world "a@x.com" "pw1"
  ∧ ¬ login_two_outcomes offline_world "a@x.com" "pw2".
Proof.
  split; [vm_compute; reflexivity|]. split.
  - intros [[Hgo _] _].
    destruct Hgo as (r & Hr & Hs).
    { exists alice. split; [by apply list_elem_of_singleton|]. split; reflexivity. }
    vm_compute in Hr. injection Hr as <-. discriminate Hs.
  - intros [_ Hno]. 
    assert (¬ credentials_match offline_world "a@x.com" "pw2") as Hbad.
    { intros (u & Hu & _ & Hck). apply list_elem_of_singleton in Hu as ->.
      vm_compute in Hck. discriminate Hck. }
    specialize (Hno Hbad). vm_compute in Hno. discriminate Hno.
Qed.

Lemma login_failures_identical_witness :
  result (serve (POST_api_login (login_body "b@x.com" "pw1")) fresh_world)
  = result (serve (POST_api_login (login_body "a@x.com" "pw2")) alice_world)
  ∧ result (serve (POST_api_login (login_body "b@x.com" "pw1")) fresh_world)
    = inl (res_status_json 401 (message_body "Invalid email or password")).
Proof.
  apply (login_failures_identical fresh_world alice_world
           (login_body "b@x.com" "pw1") (login_body "a@x.com" "pw2")
           "b@x.com" "a@x.com" "pw2" alice).
  - reflexivity.
  - reflexivity.
  - by intros ?%elem_of_nil.
  - reflexivity.
  - reflexivity.
  - reflexivity.
  - apply NoDup_singleton.
  - by apply list_elem_of_singleton.
  - reflexivity.
  - reflexivity.
Defined.

Lemma signup_outcomes_witness :
  (result (serve (POST_api_signup (signup_body "A" "B" "a@x.com" "pw1")) fresh_world)
   = inl (res_status_json 201 (message_body "User registered successfully")))
  ∧ (result (serve (POST_api_signup (signup_body "C" "D" "a@x.com" "pw2")) alice_world)
     = inl (res_status_json 400 (message_body "User already exists"))).
Proof.
  split.
  - destruct (signup_outcomes fresh_world (signup_body "A" "B" "a@x.com" "pw1") "a@x.com")
      as [_ Hnew]; [reflexivity|reflexivity|].
    apply (Hnew (λ H, proj1 (elem_of_nil _) H) "A" "B" "pw1"); (reflexivity || discriminate).
  - destruct (signup_outcomes alice_world (signup_body "C" "D" "a@x.com" "pw2") "a@x.com")
      as [Hdup _]; [reflexivity|reflexivity|].
    apply Hdup. by apply list_elem_of_singleton.
Defined.

(** A first registration that lacks [firstName] fails validation and is
    answered 500, and so is a valid first registration while the database is
    offline: neither gets the 201 the two-outcome rule promises. *)
Lemma signup_two_outcomes_counterexample :
  result (serve (POST_api_signup nameless_body) fresh_world)
  = inl (res_status_json 500 (message_body "Error registering user."))
  ∧ ¬ signup_two_outcomes fresh_world nameless_body "a@x.com"
  ∧ ¬ signup_two_outcomes offline_world (signup_body "C" "D" "c@x.com" "pw3") "c@x.com".
Proof.
  split; [vm_compute; reflexivity|]. split.
  - intros Hclaim. destruct (Hclaim eq_refl) as [_ Hnew].
    destruct Hnew as [(r & Hr & Hs) _]; [by intros ?%elem_of_nil|].
    vm_compute in Hr. injection Hr as <-. discriminate Hs.
  - intros Hclaim. destruct (Hclaim eq_refl) as [_ Hnew].
    destruct Hnew as [(r & Hr & Hs) _].
    { intros Hin%list_elem_of_singleton. discriminate Hin. }
    vm_compute in Hr. injection Hr as <-. discriminate Hs.
Qed.

Lemma signup_stores_hashed_record_witness :
  ∃ pw u,
    signup_body "A" "B" "a@x.com" "pw1" !! "password" = Some (JStr pw)
    ∧ users (final (serve (POST_api_signup (signup_body "A" "B" "a@x.com" "pw1"))
                      fresh_world))
      = users fresh_world ++ [u]
    ∧ writes (trace (serve (POST_api_signup (signup_body "A" "B" "a@x.com" "pw1"))
                       fresh_world)) = [u]
    ∧ castString (signup_body "A" "B" "a@x.com" "pw1" !! "firstName")
      = Some (User.firstName u)
    ∧ castString (signup_body "A" "B" "a@x.com" "pw1" !! "lastName")
      = Some (User.lastName u)
    ∧ castString (signup_body "A" "B" "a@x.com" "pw1" !! "email")
      = Some (User.email u)
    ∧ User.password u = bcrypt_kdf pw 10 (next_salt fresh_world).
Proof.
  destruct (signup_stores_hashed_record fresh_world
              (signup_body "A" "B" "a@x.com" "pw1")
              (res_status_json 201 (message_body "User registered successfully")))
    as [_ Hrecord].
  - vm_compute. reflexivity.
  - apply Hrecord. reflexivity.
Defined.

Lemma late_duplicate_is_a_storage_error_witness :
  result (run (resume (post_api_signup (signup_body "C" "D" "a@x.com" "pw2"))
                 fresh_world).1 alice_world)
  = inl (res_status_json 500 (message_body "Error registering user.")).
Proof.
  apply (late_duplicate_is_a_storage_error fresh_world alice_world
           (signup_body "C" "D" "a@x.com" "pw2") "C" "D" "a@x.com" "pw2");
    try reflexivity; try discriminate.
  - by intros ?%elem_of_nil.
  - by apply list_elem_of_singleton.
Defined.

(** A registration for Alice's email looks the email up while the store is
    still empty; by the time it inserts, Alice has been registered.  The
    insert is rejected with a duplicate-key error, and the answer is 500, not
    the 400 of the failed pre-check. *)
Lemma late_duplicate_is_400_counterexample :
  result (run (resume (post_api_signup (signup_body "C" "D" "a@x.com" "pw2"))
                 fresh_world).1 alice_world)
  = inl (res_status_json 500 (message_body "Error registering user."))
  ∧ ¬ late_duplicate_is_400 fresh_world alice_world
        (signup_body "C" "D" "a@x.com" "pw2").
Proof.
  split; [vm_compute; reflexivity|].
  intros Hclaim. unfold late_duplicate_is_400 in Hclaim.
  assert (result (run (resume (post_api_signup (signup_body "C" "D" "a@x.com" "pw2"))
                         fresh_world).1 alice_world) = inl DuplicateAccount) as Hr.
  { apply Hclaim. eexists _, _. vm_compute. apply list_elem_of_further, list_elem_of_here. }
  vm_compute in Hr. discriminate Hr.
Qed.

(** The same race, as the event loop runs it: both handlers look the email up
    before either inserts. *)
Example concurrent_signups_same_email :
  let first := post_api_signup (signup_body "A" "B" "a@x.com" "pw1") in
  let second := post_api_signup (signup_body "C" "D" "a@x.com" "pw2") in
  let '(pool, w) := event_loop [0; 1; 0; 0; 1; 1; 1] [first; second] fresh_world in
  pool = [ Ret (res_status_json 201 (message_body "User registered successfully"));
           Ret (res_status_json 500 (message_body "Error registering user.")) ]
  ∧ users w = [alice].
Proof. vm_compute. done. Qed.

Lemma submitted_contact_is_listed_witness :
  ∃ c listed,
    result (serve GET_api_contact
              (serve_all [POST_api_login (login_body "a@x.com" "pw1")]
                 (final (serve (POST_api_contact (contact_body "N" "n@x.com" "hello"))
                           alice_world))))
    = inl (res_status_json 200 (ContactDocs listed))
    ∧ c ∈ listed
    ∧ castString (contact_body "N" "n@x.com" "hello" !! "name") = Some (Contact.name c)
    ∧ castString (contact_body "N" "n@x.com" "hello" !! "email") = Some (Contact.email c)
    ∧ castString (contact_body "N" "n@x.com" "hello" !! "message")
      = Some (Contact.message c).
Proof.
  apply (submitted_contact_is_listed alice_world (contact_body "N" "n@x.com" "hello")
           (res_status_json 201 (message_body "Contact message saved successfully."))
           [POST_api_login (login_body "a@x.com" "pw1")]).
  - vm_compute. reflexivity.
  - reflexivity.
Defined.

Lemma predict_relays_witness :
  result (serve (POST_predict predict_body) predicting_world)
  = inl (res_status_json 200 (Json quote))
  ∧ result (serve (POST_predict predict_body) fresh_world)
    = inl (res_status_json 500 (message_body "Error processing prediction request")).
Proof.
  split.
  - destruct (predict_relays predicting_world predict_body) as (_ & _ & Hok & _).
    apply (Hok 200 quote); [reflexivity|lia].
  - destruct (predict_relays fresh_world predict_body) as (_ & _ & _ & _ & Hdown & _).
    apply Hdown. reflexivity.
Defined.

Lemma predict_forwards_only_named_fields_witness :
  outbound (trace (serve (POST_predict (<["admin" := JBool true]> predict_body))
                     fresh_world))
  = [("http://localhost:8000/predict",
      [("age", Some (JNum 31 0)); ("sex", Some (JStr "female"));
       ("bmi", Some (JNum 275 (-1))); ("children", Some (JNum 2 0));
       ("smoker", Some (JStr "no")); ("region", Some (JStr "southwest"))])]
  ∧ outbound (trace (serve (POST_predict (<["admin" := JBool true]> predict_body))
                       fresh_world))
    = outbound (trace (serve (POST_predict predict_body) predicting_world)).
Proof.
  destruct (predict_forwards_only_named_fields fresh_world predicting_world
              (<["admin" := JBool true]> predict_body) predict_body)
    as [Hsent Hsame].
  split.
  - rewrite Hsent. vm_compute. reflexivity.
  - apply Hsame. intros k Hk.
    repeat (apply elem_of_cons in Hk as [->|Hk]; [vm_compute; reflexivity|]).
    by apply elem_of_nil in Hk.
Defined.

(** C4.  The failing input: a login that carries an email and no password,
    against a store that holds a user with the email a@x.com.  For the
    stored email [bcrypt.compare] rejects the missing password and the
    [catch] block answers 500; for an email that no user has the answer is
    401.  The two failure causes receive different responses. *)
Theorem login_failure_reveals_stored_email :
  result (serve (POST_api_login (email_only_body "a@x.com")) alice_world)
  = inl (res_status_json 500 (message_body "Error logging in."))
  ∧ result (serve (POST_api_login (email_only_body "b@x.com")) alice_world)
    = inl (res_status_json 401 (message_body "Invalid email or password"))
  ∧ result (serve (POST_api_login (email_only_body "a@x.com")) alice_world)
    ≠ result (serve (POST_api_login (email_only_body "b@x.com")) alice_world).
Proof.
  assert (result (serve (POST_api_login (email_only_body "a@x.com")) alice_world)
          = inl (res_status_json 500 (message_body "Error logging in."))) as Hstored.
  { vm_compute. reflexivity. }
  assert (result (serve (POST_api_login (email_only_body "b@x.com")) alice_world)
          = inl (res_status_json 401 (message_body "Invalid email or password")))
    as Hunknown.
  { vm_compute. reflexivity. }
  split; [exact Hstored|]. split; [exact Hunknown|].
  rewrite Hstored, Hunknown. discriminate.
Qed.

Lemma status_and_log_witness :
  ∃ r, result (serve (POST_api_login (login_body "a@x.com" "pw1")) offline_world) = inl r
       ∧ body r = message_body "Error logging in.".
Proof.
  destruct (status_and_log (POST_api_login (login_body "a@x.com" "pw1")) offline_world)
    as (r & Hr & _ & _ & _ & Hbody).
  exists r. split; [exact Hr|]. apply Hbody.
  vm_compute in Hr. injection Hr as <-. reflexivity.
Defined.

Lemma contact_with_blank_field_is_rejected_witness :
  result (serve (POST_api_contact blank_contact_body) fresh_world)
  = inl (res_status_json 500 (message_body "Error saving contact message."))
  ∧ final (serve (POST_api_contact blank_contact_body) fresh_world) = fresh_world.
Proof.
  destruct (contact_with_blank_field_is_rejected fresh_world blank_contact_body)
    as (Hr & Hw & _).
  - right. right. right. right. reflexivity.
  - split; [exact Hr|exact Hw].
Defined.

Lemma contact_submission_is_stored_witness :
  contacts (final (serve (POST_api_contact (contact_body "N" "n@x.com" "hello"))
                     alice_world))
  = [Contact.Doc "N" "n@x.com" "hello" 0 0].
Proof.
  destruct (contact_submission_is_stored alice_world
              (contact_body "N" "n@x.com" "hello") "N" "n@x.com" "hello")
    as (_ & Hw & _);
    [reflexivity|reflexivity|reflexivity|discriminate|discriminate|discriminate
    |reflexivity|].
  rewrite Hw. reflexivity.
Defined.

Lemma offline_routes_fail_witness :
  result (serve GET_api_contact offline_world)
  = inl (res_status_json 500 (message_body "Error fetching contact messages.")).
Proof.
  destruct (offline_routes_fail GET_api_contact offline_world) as [_ [[b Hb]|Hr]].
  - reflexivity.
  - discriminate Hb.
  - exact Hr.
Defined.

Lemma predict_ignores_the_database_witness :
  result (serve (POST_predict predict_body) predicting_world)
  = result (serve (POST_predict predict_body) predicting_offline_world).
Proof.
  apply (predict_ignores_the_database predicting_world predicting_offline_world
           predict_body).
  reflexivity.
Defined.

Lemma login_success_reports_first_name_witness :
  ∃ u pw,
    db_connected alice_world = true
    ∧ findOne (login_body "a@x.com" "pw1" !! "email") (users alice_world) = Some u
    ∧ login_body "a@x.com" "pw1" !! "password" = Some (JStr pw)
    ∧ bcrypt_check pw (User.password u) = true
    ∧ body (res_status_json 200
              (Json (JObj [("message", JStr "Login successful"); ("name", JStr "A")])))
      = Json (JObj [("message", JStr "Login successful");
                    ("name", JStr (User.firstName u))])
    ∧ (∀ e, login_body "a@x.com" "pw1" !! "email" = Some (JStr e) →
            u ∈ users alice_world ∧ User.email u = e).
Proof.
  apply (login_success_reports_first_name alice_world (login_body "a@x.com" "pw1")).
  - vm_compute. reflexivity.
  - reflexivity.
Defined.



Lemma signup_without_text_password_witness :
  final (serve (POST_api_signup (passwordless_body "c@x.com")) alice_world) = alice_world
  ∧ writes (trace (serve (POST_api_signup (passwordless_body "c@x.com")) alice_world))
    = [].
Proof.
  destruct (signup_without_text_password alice_world (passwordless_body "c@x.com"))
    as (Hw & Hnone & _); [by intros s|].
  split; [exact Hw|exact Hnone].
Defined.

Lemma signup_with_blank_field_writes_nothing_witness :
  users (final (serve (POST_api_signup nameless_body) fresh_world)) = users fresh_world
  ∧ writes (trace (serve (POST_api_signup nameless_body) fresh_world)) = [].
Proof.
  destruct (signup_with_blank_field_writes_nothing fresh_world nameless_body)
    as (Hu & Hnone & _); [left; left; reflexivity|].
  split; [exact Hu|exact Hnone].
Defined.

Lemma stored_passwords_stay_hashed_witness :
  Forall hashed
    (users (serve_all [POST_api_signup (signup_body "C" "D" "c@x.com" "pw3");
                       POST_api_login (login_body "c@x.com" "pw3")] alice_world)).
Proof.
  apply stored_passwords_stay_hashed.
  apply Forall_singleton. exists "pw1", 0. reflexivity.
Defined.

Lemma hash_cost_is_10_witness :
  10 ∈ omap hash_cost
         (trace (serve (POST_api_signup (signup_body "A" "B" "a@x.com" "pw1")) fresh_world))
  ∧ 10 = 10.
Proof.
  assert (10 ∈ omap hash_cost
            (trace (serve (POST_api_signup (signup_body "A" "B" "a@x.com" "pw1"))
                      fresh_world))) as Hin.
  { vm_compute. apply list_elem_of_here. }
  split; [exact Hin|].
  exact (hash_cost_is_10 (POST_api_signup (signup_body "A" "B" "a@x.com" "pw1"))
           fresh_world 10 Hin).
Defined.

Lemma login_after_signup_witness :
  ∃ r, result (serve (POST_api_login (login_body "a@x.com" "pw1"))
                 (final (serve (POST_api_signup (signup_body "A" "B" "a@x.com" "pw1"))
                           fresh_world))) = inl r
       ∧ (status r = 200
          ↔ bcrypt_check "pw1" (bcrypt_kdf "pw1" saltRounds (next_salt fresh_world))
            = true).
Proof.
  apply (login_after_signup fresh_world (signup_body "A" "B" "a@x.com" "pw1")
           (login_body "a@x.com" "pw1") "A" "B" "a@x.com" "pw1" "pw1");
    try reflexivity; try discriminate.
  by intros ?%elem_of_nil.
Defined.

Lemma stored_contacts_stay_listed_witness :
  ∃ listed,
    result (serve GET_api_contact
              (serve_all [POST_api_contact (contact_body "M" "m@x.com" "again");
                          POST_api_signup (signup_body "C" "D" "c@x.com" "pw3")]
                 noted_world))
    = inl (res_status_json 200 (ContactDocs listed))
    ∧ note ∈ listed.
Proof.
  destruct (stored_contacts_stay_listed
              [POST_api_contact (contact_body "M" "m@x.com" "again");
               POST_api_signup (signup_body "C" "D" "c@x.com" "pw3")]
              noted_world) as (listed & Hr & Hin); [reflexivity|].
  exists listed. split; [exact Hr|].
  apply Hin. apply list_elem_of_here.
Defined.

Lemma second_registration_is_refused_witness :
  result (serve (POST_api_signup (signup_body "C" "D" "a@x.com" "pw2"))
            (serve_all [POST_api_login (login_body "a@x.com" "pw1")]
               (final (serve (POST_api_signup (signup_body "A" "B" "a@x.com" "pw1"))
                         fresh_world))))
  = inl (res_status_json 400 (message_body "User already exists")).
Proof.
  destruct (second_registration_is_refused fresh_world
              (signup_body "A" "B" "a@x.com" "pw1")
              (signup_body "C" "D" "a@x.com" "pw2") "a@x.com"
              (res_status_json 201 (message_body "User registered successfully"))
              [POST_api_login (login_body "a@x.com" "pw1")]) as [Hr _];
    [reflexivity|reflexivity|vm_compute; reflexivity|reflexivity|].
  exact Hr.
Defined.
